(** * Questionnaire API (main.py): embedding and verified properties

    The development follows the layout of [main.py]:
    text helpers for the [str] methods the handlers call, the HTTP
    errors they raise, the credential gate [get_current_user], the
    question store with its bulk load, the read handler [get_questions]
    and the write handler [create_question] with its write-back. *)

From Stdlib Require Import Ascii ZArith.
From stdpp Require Import base option list strings gmap.

Local Open Scope Z_scope.

(** ** Text

    A Python [str] is modelled by a [string] whose characters are code
    points below 256, the range header values are decoded to. On that
    range [str.strip] and [str.lower] are the functions below. *)

Definition code (c : ascii) : Z := Z.of_N (Ascii.N_of_ascii c).

(** [str.isspace] on one character: TAB, LF, VT, FF, CR, the separators
    FS, GS, RS, US, SPACE, NEXT LINE and NO-BREAK SPACE. *)
Definition isspace (c : ascii) : bool :=
  let n := code c in
  ((9 <=? n) && (n <=? 13)) || ((28 <=? n) && (n <=? 32))
  || (n =? 133) || (n =? 160).

Fixpoint str_lstrip (s : string) : string :=
  match s with
  | EmptyString => EmptyString
  | String c t => if isspace c then str_lstrip t else s
  end.

Fixpoint str_rstrip (s : string) : string :=
  match s with
  | EmptyString => EmptyString
  | String c t =>
      match str_rstrip t with
      | EmptyString => if isspace c then EmptyString else String c EmptyString
      | t' => String c t'
      end
  end.

(** [s.strip()] *)
Definition str_strip (s : string) : string := str_rstrip (str_lstrip s).

(** [str.lower] on one character: A..Z and the Latin-1 capitals
    (all of U+00C0..U+00DE but the multiplication sign) move up by 32. *)
Definition lower_char (c : ascii) : ascii :=
  let n := code c in
  if ((65 <=? n) && (n <=? 90))
     || ((192 <=? n) && (n <=? 222) && negb (n =? 215))
  then Ascii.ascii_of_N (Z.to_N (n + 32))
  else c.

(** [s.lower()] *)
Fixpoint str_lower (s : string) : string :=
  match s with
  | EmptyString => EmptyString
  | String c t => String (lower_char c) (str_lower t)
  end.

(** [s.startswith(p)] *)
Fixpoint str_startswith (p s : string) : bool :=
  match p, s with
  | EmptyString, _ => true
  | String a p', String b s' => bool_decide (a = b) && str_startswith p' s'
  | String _ _, EmptyString => false
  end.

(** [s[n:]] *)
Fixpoint str_drop (n : nat) (s : string) : string :=
  match n, s with
  | O, _ => s
  | S n', String _ t => str_drop n' t
  | S _, EmptyString => EmptyString
  end.

(** [sep in s] for a one-character [sep] *)
Fixpoint str_contains (sep : ascii) (s : string) : bool :=
  match s with
  | EmptyString => false
  | String c t => bool_decide (c = sep) || str_contains sep t
  end.

(** [s.split(sep)] for a one-character [sep]: never an empty list. *)
Fixpoint str_split (sep : ascii) (s : string) : list string :=
  match s with
  | EmptyString => [EmptyString]
  | String c t =>
      if bool_decide (c = sep) then EmptyString :: str_split sep t
      else match str_split sep t with
           | h :: r => String c h :: r
           | [] => [String c EmptyString]
           end
  end.

(** [s.split(sep, 1)]: one part when [sep] does not occur, else the text
    before its first occurrence and the text after it. *)
Fixpoint str_split1 (sep : ascii) (s : string) : list string :=
  match s with
  | EmptyString => [EmptyString]
  | String c t =>
      if bool_decide (c = sep) then [EmptyString; t]
      else match str_split1 sep t with
           | h :: r => String c h :: r
           | [] => [String c EmptyString]
           end
  end.

(** Truth value of a [str]: false exactly for the empty one. *)
Definition str_truthy (s : string) : bool :=
  match s with EmptyString => false | String _ _ => true end.

(** ** Exceptions and results *)

(** The [detail] of an [HTTPException], one constructor per [raise]
    with the values its message interpolates. *)
Inductive detail : Type :=
| Message (text : string)
| NoQuestionsFound (use : string) (normalized_subjects : list string)
| NotEnoughQuestions (available : nat) (count : Z).

Inductive exn : Type :=
| HTTPException (status_code : Z) (d : detail)
| RuntimeError (message : string)
| ValueError.

Inductive result (A : Type) : Type :=
| Ok (a : A)
| Raise (e : exn).
Arguments Ok {A} a.
Arguments Raise {A} e.

#[global] Instance result_ret : MRet result := fun A a => Ok a.
#[global] Instance result_bind : MBind result := fun A B f m =>
  match m with Ok a => f a | Raise e => Raise e end.

(** [if not b: raise e] *)
Definition ensure (b : bool) (e : exn) : result unit :=
  if b then Ok tt else Raise e.

(** The error kinds of the HTTP surface. *)
Definition HTTP_400_BAD_REQUEST : Z := 400.
Definition HTTP_401_UNAUTHORIZED : Z := 401.
Definition HTTP_403_FORBIDDEN : Z := 403.
Definition HTTP_404_NOT_FOUND : Z := 404.

Definition fails_with {A} (r : result A) (status : Z) : Prop :=
  ∃ d, r = Raise (HTTPException status d).

Definition Unauthenticated {A} (r : result A) : Prop :=
  fails_with r HTTP_401_UNAUTHORIZED.
Definition Forbidden {A} (r : result A) : Prop :=
  fails_with r HTTP_403_FORBIDDEN.
Definition InvalidArgument {A} (r : result A) : Prop :=
  fails_with r HTTP_400_BAD_REQUEST.
Definition NotFound {A} (r : result A) : Prop :=
  fails_with r HTTP_404_NOT_FOUND.

(** ** Credential gate *)

Definition USERS : gmap string string :=
  {[ "alice" := "wonderland"; "bob" := "builder";
     "clementine" := "mandarine" ]}.

Definition ADMIN_PASSWORD : string := "4dm1N".

Record Identity : Type := mkIdentity {
  username : string;
  is_admin : bool
}.

(** Truth value of an optional [str]: [None] and the empty text are
    false. *)
Definition opt_truthy (o : option string) : bool :=
  match o with None => false | Some s => str_truthy s end.

(** [get_current_user]; [None] is a request without the header. *)
Definition get_current_user (authorization : option string)
  : result Identity :=
  ensure (opt_truthy authorization)
    (HTTPException HTTP_401_UNAUTHORIZED
       (Message "Missing Authorization header")) ;;
  let authorization := default "" authorization in
  ensure (str_startswith "Basic " authorization)
    (HTTPException HTTP_401_UNAUTHORIZED
       (Message "Authorization must start with 'Basic '")) ;;
  let creds :=
    str_strip (str_drop (String.length "Basic ") authorization) in
  ensure (str_contains ":" creds)
    (HTTPException HTTP_401_UNAUTHORIZED
       (Message "Invalid credential format, expected username:password")) ;;
  match str_split1 ":" creds with
  | [username; password] =>
      if bool_decide (password = ADMIN_PASSWORD)
      then Ok (mkIdentity username true)
      else
        let expected := USERS !! username in
        if opt_truthy expected && bool_decide (expected = Some password)
        then Ok (mkIdentity username false)
        else Raise (HTTPException HTTP_401_UNAUTHORIZED
                      (Message "Invalid username or password"))
  | _ => Raise ValueError
  end.

(** ** Question store *)

(** A question as the store holds it: a dict with these nine keys.
    The response slots hold text or [None]. *)
Record Question : Type := mkQuestion {
  qid : Z;
  question : string;
  subject : string;
  correct : string;
  use : string;
  responseA : option string;
  responseB : option string;
  responseC : option string;
  responseD : option string
}.

#[global] Instance Question_eq_dec : EqDecision Question.
Proof. solve_decision. Defined.

(** The body of a POST: the four response slots default to [None]. *)
Module QuestionIn.
Record t : Type := mk {
  question : string;
  subject : string;
  correct : string;
  use : string;
  responseA : option string;
  responseB : option string;
  responseC : option string;
  responseD : option string
}.
End QuestionIn.

(** A data frame read from the spreadsheet: column labels and rows of
    cells. A cell is [None] when the value is missing, else the text
    [str] gives for its value. *)
Record DataFrame : Type := mkDataFrame {
  columns : list string;
  rows : list (list (option string))
}.

(** [\[str(c).strip().lower() for c in df.columns\]] *)
Definition normalize_columns (cols : list string) : list string :=
  (λ c, str_lower (str_strip c)) <$> cols.

(** [df.fillna("")]: a missing cell becomes the empty text. *)
Definition fillna (cells : list (list (option string)))
  : list (list string) :=
  (λ row : list (option string), default "" <$> row) <$> cells.

(** [str(row.get(key, ""))] for a row of a frame with labels [cols]. *)
Definition row_get (cols : list string) (row : list string)
    (key : string) : string :=
  match list_find (λ p, p.1 = key) (zip cols row) with
  | Some (_, (_, text)) => text
  | None => ""
  end.

(** A row of the frame [create_question] writes back: the eight
    columns it names, the response slots as the store holds them. *)
Record SheetRow : Type := mkSheetRow {
  sheet_question : string;
  sheet_subject : string;
  sheet_correct : string;
  sheet_use : string;
  sheet_responseA : option string;
  sheet_responseB : option string;
  sheet_responseC : option string;
  sheet_responseD : option string
}.

(** What the process can ask of its surroundings: the environment
    variables ([os.getenv]), the file system ([os.path.exists],
    [pd.read_excel]), the network ([requests.get] followed by
    [raise_for_status] and the parse of the body) and the spreadsheet
    writer ([df.to_excel]). A call that raises gives [Raise]. *)
Record Env : Type := mkEnv {
  getenv : string → option string;
  path_exists : string → bool;
  read_excel : string → result DataFrame;
  requests_get_excel : string → result DataFrame;
  to_excel : string → list SheetRow → result unit
}.

Definition DEFAULT_XLSX_URL : string :=
  "https://dst-de.s3.eu-west-3.amazonaws.com/fastapi_en/questions_en.xlsx".

(** [a or b] on optional text. *)
Definition opt_or (a b : option string) : option string :=
  if opt_truthy a then a else b.

(** [try: ... except Exception as e: raise RuntimeError(...)] *)
Definition as_RuntimeError {A} (r : result A) : result A :=
  match r with
  | Ok a => Ok a
  | Raise _ => Raise (RuntimeError "Failed to load questions file")
  end.

Definition load_questions_from_path_or_url (env : Env)
    (path_or_url : option string) : result (list Question) :=
  let path_or_url :=
    default "questions_en.xlsx"
      (opt_or (opt_or path_or_url (getenv env "QUESTIONS_PATH"))
              (Some "questions_en.xlsx")) in
  df ← as_RuntimeError
    (if str_startswith "http" (str_lower path_or_url)
     then requests_get_excel env path_or_url
     else if path_exists env path_or_url
     then read_excel env path_or_url
     else requests_get_excel env DEFAULT_XLSX_URL) ;
  let cols := normalize_columns (columns df) in
  let get := row_get cols in
  Ok (imap (λ i row,
        {| qid := Z.of_nat i + 1;
           question := get row "question";
           subject := get row "subject";
           correct := get row "correct";
           use := get row "use";
           responseA := Some (get row "responsea");
           responseB := Some (get row "responseb");
           responseC := Some (get row "responsec");
           responseD := Some (get row "responsed") |})
          (fillna (rows df))).

(** The module-level [QUESTIONS_DB]: the loaded questions, or the
    empty list when the load raised [RuntimeError]. *)
Definition startup (env : Env) : result (list Question) :=
  match load_questions_from_path_or_url env None with
  | Ok questions => Ok questions
  | Raise (RuntimeError _) => Ok []
  | Raise e => Raise e
  end.

(** ** Responses and the random source *)

Record JSONResponse (A : Type) : Type := mkJSONResponse {
  content : A;
  status_code : Z
}.
Arguments mkJSONResponse {A} content status_code.
Arguments content {A} _.
Arguments status_code {A} _.

(** [pretty_json]: the content survives the JSON round trip as it is. *)
Definition pretty_json {A} (content : A) (status_code : Z)
  : JSONResponse A :=
  mkJSONResponse content status_code.

(** The [random] module as the handlers use it, over a generator state
    [G]: [random.sample(population, k)] and [random.shuffle(x)]. *)
Class Random (G : Type) : Type := {
  sample : ∀ {A : Type}, G → list A → nat → result (list A) * G;
  shuffle : ∀ {A : Type}, G → list A → list A * G
}.

(** The documented behaviour of [random]: [sample] returns [k] elements
    chosen at distinct positions of the population when it has that
    many, and [shuffle] reorders its argument. *)
Class RandomSpec (G : Type) `{Random G} : Prop := {
  sample_spec : ∀ (A : Type) (g : G) (population : list A) (k : nat),
    (k ≤ length population)%nat →
    ∃ selected, (sample g population k).1 = Ok selected
      ∧ length selected = k ∧ selected ⊆+ population;
  shuffle_spec : ∀ (A : Type) (g : G) (x : list A),
    (shuffle g x).1 ≡ₚ x
}.

(** ** GET /questions *)

Definition allowed_counts : list Z := [5; 10; 20].

(** The loop that fills [normalized_subjects], then the lowercasing. *)
Definition normalize_subjects (subject : list string) : list string :=
  let normalized_subjects :=
    foldl (λ acc s,
             acc ++ (str_strip <$>
                       filter (λ part, str_truthy (str_strip part) = true)
                              (str_split "," s)))
          [] subject in
  str_lower <$> normalized_subjects.

(** The list comprehension that builds [matches]. *)
Definition find_matches (QUESTIONS_DB : list Question) (use_ : string)
    (normalized_subjects : list string) : list Question :=
  filter (λ q,
            str_lower (str_strip (use q)) = str_lower (str_strip use_)
            ∧ str_lower (str_strip (subject q)) ∈ normalized_subjects)
         QUESTIONS_DB.

Definition get_questions {G} `{Random G} (QUESTIONS_DB : list Question)
    (g : G) (use_ : string) (subject_ : list string) (count : Z)
    (user : Identity) : result (JSONResponse (list Question)) * G :=
  if negb (bool_decide (count ∈ allowed_counts))
  then (Raise (HTTPException 400
                 (Message "count must be one of 5, 10 or 20")), g)
  else
    let normalized_subjects := normalize_subjects subject_ in
    let matches := find_matches QUESTIONS_DB use_ normalized_subjects in
    if bool_decide (matches = [])
    then (Raise (HTTPException 404
                   (NoQuestionsFound use_ normalized_subjects)), g)
    else if Z.of_nat (length matches) <? count
    then (Raise (HTTPException 400
                   (NotEnoughQuestions (length matches) count)), g)
    else
      match sample g matches (Z.to_nat count) with
      | (Raise e, g) => (Raise e, g)
      | (Ok selected, g) =>
          let '(selected, g) := shuffle g selected in
          (Ok (pretty_json selected 200), g)
      end.

(** ** POST /questions *)

(** [max(xs, default=d)] *)
Definition max_default (d : Z) (xs : list Z) : Z :=
  match xs with
  | [] => d
  | x :: xs' => foldl Z.max x xs'
  end.

(** [new_question.dict()] with the key [qid] set. *)
Definition with_qid (new_question : QuestionIn.t) (id : Z) : Question :=
  {| qid := id;
     question := QuestionIn.question new_question;
     subject := QuestionIn.subject new_question;
     correct := QuestionIn.correct new_question;
     use := QuestionIn.use new_question;
     responseA := QuestionIn.responseA new_question;
     responseB := QuestionIn.responseB new_question;
     responseC := QuestionIn.responseC new_question;
     responseD := QuestionIn.responseD new_question |}.

(** One row of the frame written back: the eight columns, no [qid]. *)
Definition sheet_row (q : Question) : SheetRow :=
  {| sheet_question := question q;
     sheet_subject := subject q;
     sheet_correct := correct q;
     sheet_use := use q;
     sheet_responseA := responseA q;
     sheet_responseB := responseB q;
     sheet_responseC := responseC q;
     sheet_responseD := responseD q |}.

(** A call of [df.to_excel(path, index=False)] and how it ended. *)
Inductive io_event : Type :=
| ToExcel (path : string) (frame : list SheetRow) (outcome : result unit).

(** The [try] block after the append; [except Exception: pass] drops
    the outcome of the write. *)
Definition persist (env : Env) (QUESTIONS_DB : list Question)
  : list io_event :=
  let persist_path :=
    default "questions_en.xlsx" (getenv env "QUESTIONS_PATH") in
  if path_exists env persist_path
  then
    let df := sheet_row <$> QUESTIONS_DB in
    [ToExcel persist_path df (to_excel env persist_path df)]
  else [].

(** [create_question]: the response, the store afterwards and the
    writes issued. *)
Definition create_question (env : Env) (QUESTIONS_DB : list Question)
    (new_question : QuestionIn.t) (user : Identity)
  : result (JSONResponse Question) * list Question * list io_event :=
  if negb (is_admin user)
  then (Raise (HTTPException 403
                 (Message "Admin privileges required to create a question")),
        QUESTIONS_DB, [])
  else
    let max_id := max_default 0 (qid <$> QUESTIONS_DB) in
    let created := with_qid new_question (max_id + 1) in
    let QUESTIONS_DB := QUESTIONS_DB ++ [created] in
    let events := persist env QUESTIONS_DB in
    (Ok (pretty_json created 201), QUESTIONS_DB, events).

(** The stores the process can hold: the one built at startup, and any
    store a call of [create_question] leaves behind. *)
Inductive reachable : list Question → Prop :=
| reachable_startup env db :
    startup env = Ok db → reachable db
| reachable_create env db new_question user :
    reachable db →
    reachable (create_question env db new_question user).1.2.

(** ** The selection rules as the specification words them *)

(** Split every element on commas, trim, drop the empty parts, then
    lowercase each token. *)
Definition spec_normalized_subjects (subject_ : list string)
  : list string :=
  str_lower <$>
    filter (λ part, part ≠ "")
           (str_strip <$> (subject_ ≫= str_split ",")).

(** A question matches when its [use] and the requested one agree after
    trimming and lowercasing, and its [subject], trimmed and lowercased,
    is one of the normalized subjects. *)
Definition spec_is_match (use_ : string) (subject_ : list string)
    (q : Question) : Prop :=
  str_lower (str_strip (use q)) = str_lower (str_strip use_)
  ∧ str_lower (str_strip (subject q)) ∈ spec_normalized_subjects subject_.

#[global] Instance spec_is_match_dec use_ subject_ q :
  Decision (spec_is_match use_ subject_ q).
Proof. unfold spec_is_match. apply _. Defined.

(** ** A generator that reads its draws from a tape

    It lets the handlers run on concrete inputs: every draw takes the
    next number of the tape, reduced to the range asked for. *)

Definition Tape : Type := list nat.

Definition randbelow (n : nat) (t : Tape) : nat * Tape :=
  match t with
  | [] => (0%nat, [])
  | r :: t' => ((r `mod` n)%nat, t')
  end.

(** Draw [k] times from the pool, removing what was drawn. *)
Fixpoint tape_draw {A} (t : Tape) (pool : list A) (k : nat)
  : list A * Tape :=
  match k with
  | O => ([], t)
  | S k' =>
      let '(j, t1) := randbelow (length pool) t in
      match pool !! j with
      | Some x =>
          let '(r, t2) := tape_draw t1 (delete j pool) k' in (x :: r, t2)
      | None => ([], t1)
      end
  end.

(** [random.sample] raises [ValueError] when asked for more than the
    population holds. *)
Definition tape_sample {A} (t : Tape) (population : list A) (k : nat)
  : result (list A) * Tape :=
  if decide (length population < k)%nat then (Raise ValueError, t)
  else let '(r, t') := tape_draw t population k in (Ok r, t').

Definition tape_shuffle {A} (t : Tape) (x : list A) : list A * Tape :=
  tape_draw t x (length x).

#[global] Instance tape_random : Random Tape :=
  {| sample := @tape_sample; shuffle := @tape_shuffle |}.

(** Sample data for running the handlers. *)
Definition sample_question (id : Z) (use_ subject_ : string) : Question :=
  mkQuestion id "Q" subject_ "A" use_ (Some "yes") (Some "no") (Some "") (Some "").

Definition six_questions : list Question :=
  [ sample_question 1 "Exam" "Math";
    sample_question 2 "exam " " MATH";
    sample_question 3 "exam" "physics";
    sample_question 4 "training" "math";
    sample_question 5 "EXAM" "Physics ";
    sample_question 6 "exam" "math" ].

Definition six_rows : DataFrame :=
  mkDataFrame [" Question"; "Subject "; "USE"; "Correct"; "ResponseA"]
    ((λ q, [Some (question q); Some (subject q); Some (use q);
            Some (correct q); None]) <$> six_questions).

Definition offline_env (frame : result DataFrame) (sheet_present : bool)
    (write : result unit) : Env :=
  {| getenv := λ _, None;
     path_exists := λ _, sheet_present;
     read_excel := λ _, frame;
     requests_get_excel := λ _, frame;
     to_excel := λ _ _, write |}.

Definition admin : Identity := mkIdentity "anything" true.
Definition alice : Identity := mkIdentity "alice" false.

Definition new_exam_question : QuestionIn.t :=
  QuestionIn.mk "What is 2+2?" "math" "A" "exam" (Some "4") (Some "5") None None.

(** The store the process builds at startup from [six_rows]. *)
Definition six_loaded : list Question :=
  Eval cbv in
    match startup (offline_env (Ok six_rows) false (Ok ())) with
    | Ok questions => questions
    | Raise _ => []
    end.

(** ** The routes

    [@app.get("/questions")] and [@app.post("/questions")]: the
    parameter [user = Depends(get_current_user)] makes the framework run
    the gate on the [Authorization] header first and call the handler
    with the identity it returns; an exception of the gate is the
    response. *)

Definition route_get_questions {G} `{Random G}
    (QUESTIONS_DB : list Question) (g : G) (authorization : option string)
    (use_ : string) (subject_ : list string) (count : Z)
  : result (JSONResponse (list Question)) * G :=
  match get_current_user authorization with
  | Ok user => get_questions QUESTIONS_DB g use_ subject_ count user
  | Raise e => (Raise e, g)
  end.

Definition route_create_question (env : Env)
    (QUESTIONS_DB : list Question) (authorization : option string)
    (new_question : QuestionIn.t)
  : result (JSONResponse Question) * list Question * list io_event :=
  match get_current_user authorization with
  | Ok user => create_question env QUESTIONS_DB new_question user
  | Raise e => (Raise e, QUESTIONS_DB, [])
  end.

(** ** The two halves of the bulk load *)

(** The [try] block of [load_questions_from_path_or_url]: which source
    is read. *)
Definition fetch_frame (env : Env) (path_or_url : option string)
  : result DataFrame :=
  let path_or_url :=
    default "questions_en.xlsx"
      (opt_or (opt_or path_or_url (getenv env "QUESTIONS_PATH"))
              (Some "questions_en.xlsx")) in
  as_RuntimeError
    (if str_startswith "http" (str_lower path_or_url)
     then requests_get_excel env path_or_url
     else if path_exists env path_or_url
     then read_excel env path_or_url
     else requests_get_excel env DEFAULT_XLSX_URL).

(** The rest of it: the loop over [df.iterrows()]. *)
Definition frame_questions (df : DataFrame) : list Question :=
  let cols := normalize_columns (columns df) in
  let get := row_get cols in
  imap (λ i row,
        {| qid := Z.of_nat i + 1;
           question := get row "question";
           subject := get row "subject";
           correct := get row "correct";
           use := get row "use";
           responseA := Some (get row "responsea");
           responseB := Some (get row "responseb");
           responseC := Some (get row "responsec");
           responseD := Some (get row "responsed") |})
       (fillna (rows df)).

(** The column keys the load reads, and the field of a question each
    one fills. *)
Definition load_keys : list string :=
  ["question"; "subject"; "correct"; "use";
   "responsea"; "responseb"; "responsec"; "responsed"].

Definition loaded_field (key : string) (q : Question) : option string :=
  if decide (key = "question") then Some (question q)
  else if decide (key = "subject") then Some (subject q)
  else if decide (key = "correct") then Some (correct q)
  else if decide (key = "use") then Some (use q)
  else if decide (key = "responsea") then responseA q
  else if decide (key = "responseb") then responseB q
  else if decide (key = "responsec") then responseC q
  else if decide (key = "responsed") then responseD q
  else None.

(** * Properties *)

(** ** Text lemmas *)

Lemma str_contains_lstrip sep s :
  isspace sep = false →
  str_contains sep (str_lstrip s) = str_contains sep s.
Proof.
  intros Hsep. induction s as [|c t IH]; [done|]. simpl.
  destruct (isspace c) eqn:Hc; [|done].
  rewrite IH. rewrite bool_decide_eq_false_2; [done|]. congruence.
Qed.

Lemma str_rstrip_empty sep s :
  isspace sep = false →
  str_rstrip s = EmptyString → str_contains sep s = false.
Proof.
  intros Hsep. induction s as [|c t IH]; [done|]. simpl.
  destruct (str_rstrip t) eqn:Ht; [|done].
  destruct (isspace c) eqn:Hc; [|done]. intros _.
  rewrite IH by done. rewrite bool_decide_eq_false_2; [done|]. congruence.
Qed.

Lemma str_contains_rstrip sep s :
  isspace sep = false →
  str_contains sep (str_rstrip s) = str_contains sep s.
Proof.
  intros Hsep. induction s as [|c t IH]; [done|]. simpl.
  destruct (str_rstrip t) as [|c' t'] eqn:Ht.
  - rewrite (str_rstrip_empty sep t) by done.
    destruct (isspace c) eqn:Hc; simpl; [|done].
    rewrite bool_decide_eq_false_2; [done|]. congruence.
  - simpl in *. by rewrite IH.
Qed.

Lemma str_contains_strip sep s :
  isspace sep = false →
  str_contains sep (str_strip s) = str_contains sep s.
Proof.
  intros Hsep. unfold str_strip.
  by rewrite str_contains_rstrip, str_contains_lstrip.
Qed.

(** Without the separator [split(sep, 1)] gives the text itself. *)
Lemma str_split1_absent sep s :
  str_contains sep s = false → str_split1 sep s = [s].
Proof.
  induction s as [|c t IH]; [done|]. simpl.
  case_bool_decide; [done|]. simpl. intros Ht. by rewrite IH.
Qed.

(** With the separator it gives the text before its first occurrence
    and the text after it. *)
Lemma str_split1_present sep s :
  str_contains sep s = true →
  ∃ u p, str_split1 sep s = [u; p] ∧ str_contains sep u = false
         ∧ s = u +:+ String sep p.
Proof.
  induction s as [|c t IH]; [done|]. simpl.
  case_bool_decide as Hc; simpl.
  - intros _. subst c. by exists EmptyString, t.
  - intros Ht. destruct (IH Ht) as (u & p & -> & Hu & ->).
    exists (String c u), p. simpl. split_and!; [done| |done].
    by rewrite bool_decide_eq_false_2.
Qed.

Lemma str_split1_pair sep s u p :
  str_split1 sep s = [u; p] → str_contains sep s = true.
Proof.
  intros Hs. destruct (str_contains sep s) eqn:Hc; [done|].
  by rewrite str_split1_absent in Hs.
Qed.

(** ** The [raise] guards *)

Lemma ensure_true {A} e (k : result A) : (ensure true e ;; k) = k.
Proof. done. Qed.

Lemma ensure_false {A} e (k : result A) : (ensure false e ;; k) = Raise e.
Proof. done. Qed.

(** ** Credential gate *)

(** Every password of the user table is a non-empty text, so the
    truth test on [expected] only filters unknown usernames. *)
Lemma USERS_passwords_truthy username expected :
  USERS !! username = Some expected → str_truthy expected = true.
Proof.
  unfold USERS. intros H.
  repeat (apply lookup_insert_Some in H as [[_ <-]|[_ H]]; [done|]).
  by apply lookup_singleton_Some in H as [_ <-].
Qed.

Lemma Basic_prefix rest :
  str_startswith "Basic " ("Basic " +:+ rest) = true
  ∧ str_drop 6 ("Basic " +:+ rest) = rest.
Proof. done. Qed.

(** Once the header passed the three format checks and split into
    [username] and [password], the gate is the two password tests. *)
Lemma get_current_user_split a username password :
  str_startswith "Basic " a = true →
  str_split1 ":" (str_strip (str_drop 6 a)) = [username; password] →
  get_current_user (Some a)
  = if bool_decide (password = ADMIN_PASSWORD)
    then Ok (mkIdentity username true)
    else if bool_decide (USERS !! username = Some password)
    then Ok (mkIdentity username false)
    else Raise (HTTPException HTTP_401_UNAUTHORIZED
                  (Message "Invalid username or password")).
Proof.
  intros Hpre Hsplit. unfold get_current_user.
  assert (opt_truthy (Some a) = true) as -> by by destruct a.
  rewrite ensure_true. cbv zeta.
  change (default "" (Some a)) with a. rewrite Hpre, ensure_true.
  change (String.length "Basic ") with 6%nat.
  rewrite (str_split1_pair _ _ _ _ Hsplit), ensure_true, Hsplit.
  case_bool_decide; [done|].
  destruct (USERS !! username) as [expected|] eqn:Hu; simpl; [|done].
  rewrite (USERS_passwords_truthy _ _ Hu). simpl.
  by repeat case_bool_decide; simplify_eq.
Qed.

(** C1. When the header is ["Basic "] followed by a payload that, once
    trimmed, splits at its first colon into a username and the admin
    password, the gate returns that username with [is_admin = True]:
    the username is not looked at, so it need not be in [USERS]. *)
Theorem admin_password_overrides_username rest username password :
  str_contains ":" rest = true →
  str_split1 ":" (str_strip rest) = [username; password] →
  password = ADMIN_PASSWORD →
  get_current_user (Some ("Basic " +:+ rest))
  = Ok (mkIdentity username true).
Proof.
  intros _ Hsplit ->.
  destruct (Basic_prefix rest) as [Hpre Hdrop].
  rewrite (get_current_user_split _ username ADMIN_PASSWORD Hpre).
  - by rewrite bool_decide_eq_true_2.
  - by rewrite Hdrop.
Qed.

Lemma admin_password_overrides_username_witness :
  USERS !! "anything" = None
  ∧ get_current_user (Some "Basic anything:4dm1N")
    = Ok (mkIdentity "anything" true).
Proof.
  split; [done|].
  by apply (admin_password_overrides_username
              "anything:4dm1N" "anything" "4dm1N").
Defined.

(** The sample credentials of the interface description. *)
Example gate_accepts_alice :
  get_current_user (Some "Basic alice:wonderland")
  = Ok (mkIdentity "alice" false).
Proof. reflexivity. Qed.

Example gate_trims_payload :
  get_current_user (Some "Basic   bob:builder  ")
  = Ok (mkIdentity "bob" false).
Proof. reflexivity. Qed.

Example gate_rejects_wrong_password :
  Unauthenticated (get_current_user (Some "Basic alice:wrong")).
Proof. by eexists. Qed.

Example gate_rejects_bearer :
  Unauthenticated (get_current_user (Some "Bearer x:y")).
Proof. by eexists. Qed.

Example gate_splits_at_first_colon :
  Unauthenticated (get_current_user (Some "Basic a:b:4dm1N")).
Proof. by eexists. Qed.

Lemma get_current_user_missing : Unauthenticated (get_current_user None).
Proof. by eexists. Qed.

Lemma get_current_user_bad_scheme a :
  str_startswith "Basic " a = false →
  Unauthenticated (get_current_user (Some a)).
Proof.
  intros Hpre. unfold get_current_user.
  destruct a as [|c t]; [by eexists|].
  change (opt_truthy (Some (String c t))) with true.
  rewrite ensure_true. cbv zeta.
  change (default "" (Some (String c t))) with (String c t).
  rewrite Hpre, ensure_false. by eexists.
Qed.

Lemma get_current_user_no_colon a :
  str_startswith "Basic " a = true →
  str_contains ":" (str_drop 6 a) = false →
  Unauthenticated (get_current_user (Some a)).
Proof.
  intros Hpre Hcolon. unfold get_current_user.
  assert (opt_truthy (Some a) = true) as -> by by destruct a.
  rewrite ensure_true. cbv zeta.
  change (default "" (Some a)) with a. rewrite Hpre, ensure_true.
  change (String.length "Basic ") with 6%nat.
  rewrite str_contains_strip, Hcolon, ensure_false by done. by eexists.
Qed.

(** C7. The gate is a function of the header alone, and it fails with
    401 exactly when the header is absent, or does not start with
    ["Basic "], or what follows the prefix has no colon, or the password
    cut out of the trimmed payload is neither the admin password nor the
    one [USERS] stores for the username cut out of it. Whenever it does
    not fail that way it returns an identity. *)
Theorem gate_unauthenticated_iff authorization :
  (Unauthenticated (get_current_user authorization) ↔
     authorization = None
     ∨ ∃ a, authorization = Some a
        ∧ (str_startswith "Basic " a = false
           ∨ str_contains ":" (str_drop 6 a) = false
           ∨ ∃ username password,
               str_split1 ":" (str_strip (str_drop 6 a))
               = [username; password]
               ∧ password ≠ ADMIN_PASSWORD
               ∧ USERS !! username ≠ Some password))
  ∧ (¬ Unauthenticated (get_current_user authorization) →
     ∃ identity, get_current_user authorization = Ok identity).
Proof.
  destruct authorization as [a|].
  2: { split; [|intros []; apply get_current_user_missing].
       split; [by left | intros _; apply get_current_user_missing]. }
  destruct (str_startswith "Basic " a) eqn:Hpre.
  2: { pose proof (get_current_user_bad_scheme a Hpre). split; [|done].
       split; [|done]. intros _. right. exists a. auto. }
  destruct (str_contains ":" (str_drop 6 a)) eqn:Hcolon.
  2: { pose proof (get_current_user_no_colon a Hpre Hcolon). split; [|done].
       split; [|done]. intros _. right. exists a. auto. }
  assert (str_contains ":" (str_strip (str_drop 6 a)) = true) as Hc
    by by rewrite str_contains_strip.
  destruct (str_split1_present _ _ Hc) as (u & p & Hsplit & _ & _).
  rewrite (get_current_user_split a u p Hpre Hsplit).
  case_bool_decide as Hadmin; [|case_bool_decide as Huser].
  - split; [|by eexists]. split.
    + by intros [d ?].
    + intros [?|(a' & [= <-] & [?|[?|(u' & p' & ? & ? & ?)]])];
        congruence.
  - split; [|by eexists]. split.
    + by intros [d ?].
    + intros [?|(a' & [= <-] & [?|[?|(u' & p' & ? & ? & ?)]])];
        congruence.
  - split; [|by intros []; eexists]. split; [|by eexists].
    intros _. right. exists a. split; [done|]. right; right. by exists u, p.
Qed.

(** ** Question store *)

Lemma foldl_max_le (x : Z) (xs : list Z) :
  x ≤ foldl Z.max x xs ∧ ∀ y, y ∈ xs → y ≤ foldl Z.max x xs.
Proof.
  revert x. induction xs as [|z zs IH]; intros x; simpl.
  - split; [lia|]. by intros y ?%elem_of_nil.
  - destruct (IH (x `max` z)) as [H1 H2]. split; [lia|].
    intros y [->|Hy]%elem_of_cons; [lia|by apply H2].
Qed.

Lemma foldl_max_elem (x : Z) (xs : list Z) :
  foldl Z.max x xs ∈ x :: xs.
Proof.
  revert x. induction xs as [|z zs IH]; intros x; simpl; [set_solver|].
  specialize (IH (x `max` z)).
  apply elem_of_cons in IH as [->|IH]; [|set_solver].
  destruct (Z.max_spec x z) as [[_ ->]|[_ ->]]; set_solver.
Qed.

(** [max(xs, default=d)] bounds every element of [xs]. *)
Lemma max_default_le d xs x : x ∈ xs → x ≤ max_default d xs.
Proof.
  destruct xs as [|z zs]; simpl; [by intros ?%elem_of_nil|].
  destruct (foldl_max_le z zs) as [H1 H2].
  intros [->|Hx]%elem_of_cons; [done|by apply H2].
Qed.

(** It is one of them, unless there is none. *)
Lemma max_default_elem d xs : xs ≠ [] → max_default d xs ∈ xs.
Proof. destruct xs as [|z zs]; [done|]. intros _. apply foldl_max_elem. Qed.

Lemma max_default_greatest d xs k :
  k ∈ xs → (∀ x, x ∈ xs → x ≤ k) → max_default d xs = k.
Proof.
  intros Hk Hmax. apply Z.le_antisymm.
  - apply Hmax, max_default_elem. by intros ->; apply elem_of_nil in Hk.
  - by apply max_default_le.
Qed.

(** What an admin call of [create_question] leaves behind. *)
Lemma create_question_admin env db new_question user :
  is_admin user = true →
  create_question env db new_question user
  = let created :=
      with_qid new_question (max_default 0 (qid <$> db) + 1) in
    (Ok (pretty_json created 201), db ++ [created],
     persist env (db ++ [created])).
Proof. intros Hadmin. unfold create_question. by rewrite Hadmin. Qed.

Lemma create_question_forbidden env db new_question user :
  is_admin user = false →
  Forbidden (create_question env db new_question user).1.1
  ∧ (create_question env db new_question user).1.2 = db.
Proof.
  intros Hadmin. unfold create_question. rewrite Hadmin. simpl.
  split; [by eexists|done].
Qed.

(** C2. An admin call of [create_question] gives the new question the
    qid [max(existing qids, default 0) + 1], which is 1 on an empty
    store and [k + 1] when [k] is the greatest qid of the store; the
    question is put at the end of the store, and the 201 response
    carries that stored question with its qid. *)
Theorem create_question_assigns_next_qid env db new_question user :
  is_admin user = true →
  ∃ created,
    create_question env db new_question user
    = (Ok (pretty_json created 201), db ++ [created],
       persist env (db ++ [created]))
    ∧ created = with_qid new_question (qid created)
    ∧ qid created = max_default 0 (qid <$> db) + 1
    ∧ (db = [] → qid created = 1)
    ∧ (∀ k, k ∈ qid <$> db → (∀ x, x ∈ qid <$> db → x ≤ k) →
         qid created = k + 1).
Proof.
  intros Hadmin. rewrite create_question_admin by done.
  eexists. split; [done|]. split; [done|]. split; [done|]. split.
  - by intros ->.
  - intros k Hk Hmax. simpl. by rewrite (max_default_greatest 0 _ k).
Qed.

Lemma create_question_assigns_next_qid_witness :
  is_admin admin = true
  ∧ ∃ created,
      create_question (offline_env (Ok six_rows) false (Ok ()))
        six_questions new_exam_question admin
      = (Ok (pretty_json created 201), six_questions ++ [created],
         persist (offline_env (Ok six_rows) false (Ok ()))
           (six_questions ++ [created]))
      ∧ qid created = 7.
Proof.
  split; [reflexivity|].
  destruct (create_question_assigns_next_qid
              (offline_env (Ok six_rows) false (Ok ()))
              six_questions new_exam_question admin eq_refl)
    as (created & Hrun & _ & Hqid & _ & _).
  exists created. split; [exact Hrun|exact Hqid].
Defined.

(** The bulk load, when it succeeds, maps the rows of some frame in
    order, numbering them from 1. *)
Lemma load_questions_rows env path_or_url questions :
  load_questions_from_path_or_url env path_or_url = Ok questions →
  ∃ (cols : list string) (cells : list (list string)),
    questions
    = imap (λ i row,
        {| qid := Z.of_nat i + 1;
           question := row_get cols row "question";
           subject := row_get cols row "subject";
           correct := row_get cols row "correct";
           use := row_get cols row "use";
           responseA := Some (row_get cols row "responsea");
           responseB := Some (row_get cols row "responseb");
           responseC := Some (row_get cols row "responsec");
           responseD := Some (row_get cols row "responsed") |}) cells.
Proof.
  unfold load_questions_from_path_or_url. cbv zeta.
  match goal with |- context [as_RuntimeError ?r] =>
    destruct (as_RuntimeError r) as [df|e] end; [|done].
  intros [= <-]. by eexists _, _.
Qed.

Lemma startup_cases env db :
  startup env = Ok db →
  db = [] ∨ load_questions_from_path_or_url env None = Ok db.
Proof.
  unfold startup.
  destruct (load_questions_from_path_or_url env None) as [qs|[]];
    intros [= <-]; auto.
Qed.

Lemma loaded_qids env path_or_url questions :
  load_questions_from_path_or_url env path_or_url = Ok questions →
  qid <$> questions
  = (λ i, Z.of_nat i + 1) <$> seq 0 (length questions).
Proof.
  intros (cols & cells & ->)%load_questions_rows.
  by rewrite fmap_imap, length_imap, <-imap_seq_0.
Qed.

Lemma row_number_inj : Inj (=) (=) (λ i : nat, Z.of_nat i + 1).
Proof. intros i j ?. lia. Qed.

Lemma loaded_qids_NoDup env path_or_url questions :
  load_questions_from_path_or_url env path_or_url = Ok questions →
  NoDup (qid <$> questions).
Proof.
  intros ->%loaded_qids.
  apply (NoDup_fmap_2 (Inj0 := row_number_inj) _), NoDup_seq.
Qed.

(** The qid [create_question] assigns is above every qid in the
    store. *)
Lemma append_keeps_qids_NoDup db new_question :
  NoDup (qid <$> db) →
  NoDup (qid <$> db ++
           [with_qid new_question (max_default 0 (qid <$> db) + 1)]).
Proof.
  intros Hdb. rewrite fmap_app. apply NoDup_app. split_and!; [done| |].
  - intros x Hx [->|[]%elem_of_nil]%elem_of_cons.
    apply (max_default_le 0) in Hx. simpl in Hx. lia.
  - apply NoDup_singleton.
Qed.

(** The invariant of the store: no qid occurs twice. *)
Lemma reachable_NoDup db : reachable db → NoDup (qid <$> db).
Proof.
  induction 1 as [env db Hstart|env db new_question user _ IH].
  - apply startup_cases in Hstart as [->|Hload].
    + apply NoDup_nil_2.
    + by eapply loaded_qids_NoDup.
  - destruct (is_admin user) eqn:Hadmin.
    + rewrite create_question_admin by done. simpl.
      by apply append_keeps_qids_NoDup.
    + by rewrite (proj2 (create_question_forbidden _ _ _ _ Hadmin)).
Qed.

(** C9. In every store the process can hold, the one built at startup
    and every one reached from it by calls of [create_question], the
    qids are pairwise distinct: the question at row position [i] of a
    bulk load has qid [i + 1], and an append assigns a qid above every
    qid of the store it extends. *)
Theorem reachable_qids_distinct db :
  reachable db →
  NoDup (qid <$> db)
  ∧ (∀ env, startup env = Ok db →
       ∀ i q, db !! i = Some q → qid q = Z.of_nat i + 1)
  ∧ (∀ new_question x,
       x ∈ qid <$> db →
       x < qid (with_qid new_question (max_default 0 (qid <$> db) + 1))).
Proof.
  intros Hreach. split_and!.
  - by apply reachable_NoDup.
  - intros env [->|Hload]%startup_cases i q Hq; [done|].
    pose proof (loaded_qids _ _ _ Hload) as Hi.
    apply (f_equal (.!! i)) in Hi.
    rewrite !list_lookup_fmap, Hq in Hi. simpl in Hi.
    apply lookup_lt_Some in Hq.
    rewrite lookup_seq_lt in Hi by done. by injection Hi.
  - intros new_question x Hx%(max_default_le 0). simpl. lia.
Qed.

Lemma reachable_qids_distinct_witness :
  let env := offline_env (Ok six_rows) false (Ok ()) in
  let db := (create_question env six_loaded new_exam_question admin).1.2 in
  reachable db ∧ NoDup (qid <$> db).
Proof.
  assert (reachable
            (create_question (offline_env (Ok six_rows) false (Ok ()))
               six_loaded new_exam_question admin).1.2) as Hreach.
  { apply reachable_create.
    apply (reachable_startup (offline_env (Ok six_rows) false (Ok ()))).
    reflexivity. }
  split; [exact Hreach|exact (proj1 (reachable_qids_distinct _ Hreach))].
Defined.

(** ** Write-back *)

(** C8. After an admin append the write-back is attempted only when the
    target path exists: when it does not, no write is issued; when it
    does, one [to_excel] call is issued on that path with a frame built
    from the whole store, the new question last. Whatever that call
    does, raising included, the handler answers 201 with the created
    question. *)
Theorem write_back_is_best_effort env db new_question user :
  is_admin user = true →
  let persist_path :=
    default "questions_en.xlsx" (getenv env "QUESTIONS_PATH") in
  ∃ created events,
    create_question env db new_question user
    = (Ok (pretty_json created 201), db ++ [created], events)
    ∧ (path_exists env persist_path = false → events = [])
    ∧ (path_exists env persist_path = true →
       ∃ outcome,
         events = [ToExcel persist_path (sheet_row <$> db ++ [created])
                     outcome]
         ∧ outcome
           = to_excel env persist_path (sheet_row <$> db ++ [created])
         ∧ length (sheet_row <$> db ++ [created]) = S (length db))
    ∧ (∀ e, to_excel env persist_path (sheet_row <$> db ++ [created])
            = Raise e →
         (create_question env db new_question user).1.1
         = Ok (pretty_json created 201)).
Proof.
  intros Hadmin persist_path. rewrite create_question_admin by done.
  eexists _, _. split; [done|]. unfold persist. fold persist_path.
  split_and!.
  - by intros ->.
  - intros ->. eexists. split_and!; [done..|].
    rewrite length_fmap, length_app. simpl. lia.
  - done.
Qed.

Lemma write_back_is_best_effort_witness :
  let env := offline_env (Ok six_rows) true (Raise ValueError) in
  is_admin admin = true
  ∧ ∃ created,
      create_question env six_questions new_exam_question admin
      = (Ok (pretty_json created 201), six_questions ++ [created],
         [ToExcel "questions_en.xlsx"
            (sheet_row <$> six_questions ++ [created])
            (Raise ValueError)]).
Proof.
  split; [reflexivity|].
  destruct (write_back_is_best_effort
              (offline_env (Ok six_rows) true (Raise ValueError))
              six_questions new_exam_question admin eq_refl)
    as (created & events & Hrun & _ & Hwrite & _).
  destruct (Hwrite eq_refl) as (outcome & -> & -> & _).
  exists created. exact Hrun.
Defined.

(** ** Response slots *)

(** C10. An admin append stores and returns the question with [None] in
    every response slot the payload left out, while every question of a
    bulk load holds text in all four response slots. *)
Theorem response_slots_asymmetry
    env db new_question user env' path_or_url loaded q :
  is_admin user = true →
  load_questions_from_path_or_url env' path_or_url = Ok loaded →
  q ∈ loaded →
  (∃ created,
     (create_question env db new_question user).1
     = (Ok (pretty_json created 201), db ++ [created])
     ∧ (QuestionIn.responseA new_question = None →
        responseA created = None)
     ∧ (QuestionIn.responseB new_question = None →
        responseB created = None)
     ∧ (QuestionIn.responseC new_question = None →
        responseC created = None)
     ∧ (QuestionIn.responseD new_question = None →
        responseD created = None))
  ∧ is_Some (responseA q) ∧ is_Some (responseB q)
  ∧ is_Some (responseC q) ∧ is_Some (responseD q).
Proof.
  intros Hadmin (cols & cells & ->)%load_questions_rows Hq. split.
  - rewrite create_question_admin by done. eexists. by split_and!.
  - apply elem_of_lookup_imap in Hq as (i & row & -> & _). simpl.
    by split_and!.
Qed.

Lemma response_slots_asymmetry_witness :
  let env := offline_env (Ok six_rows) false (Ok ()) in
  ∃ created loaded_first,
    (create_question env six_loaded new_exam_question admin).1
    = (Ok (pretty_json created 201), six_loaded ++ [created])
    ∧ QuestionIn.responseC new_exam_question = None
    ∧ responseC created = None
    ∧ six_loaded !! 0%nat = Some loaded_first
    ∧ responseC loaded_first = Some "".
Proof.
  assert (mkQuestion 1 "Q" "Math" "A" "Exam"
            (Some "") (Some "") (Some "") (Some "") ∈ six_loaded) as Hin
    by apply list_elem_of_here.
  destruct (response_slots_asymmetry
              (offline_env (Ok six_rows) false (Ok ()))
              six_loaded new_exam_question admin
              (offline_env (Ok six_rows) false (Ok ())) None six_loaded
              _ eq_refl eq_refl Hin)
    as [(created & Hrun & _ & _ & HC & _) _].
  exists created. eexists. split; [exact Hrun|].
  split; [reflexivity|]. split; [exact (HC eq_refl)|].
  split; reflexivity.
Defined.

(** ** Selection: normalization and matching *)

Lemma foldl_extend {A B} (f : B → list A) (acc : list A) (l : list B) :
  foldl (λ acc s, acc ++ f s) acc l = acc ++ (l ≫= f).
Proof.
  revert acc. induction l as [|s l IH]; intros acc.
  - simpl. by rewrite app_nil_r.
  - cbn [foldl]. by rewrite IH, bind_cons, app_assoc.
Qed.

Lemma str_truthy_nonempty s : str_truthy s = true ↔ s ≠ "".
Proof. by destruct s. Qed.

(** Trimming the parts kept by the truth test is keeping the non-empty
    ones among the trimmed parts. *)
Lemma strip_kept_parts (parts : list string) :
  str_strip <$> filter (λ part, str_truthy (str_strip part) = true) parts
  = filter (λ part, part ≠ "") (str_strip <$> parts).
Proof.
  induction parts as [|part parts IH]; [done|].
  rewrite fmap_cons, !filter_cons.
  destruct (decide (str_truthy (str_strip part) = true)) as [Hk|Hk];
    destruct (decide (str_strip part ≠ "")) as [Hn|Hn];
    rewrite ?fmap_cons, IH; try done;
    by apply str_truthy_nonempty in Hk || apply str_truthy_nonempty in Hn.
Qed.

Lemma normalize_subjects_spec subject_ :
  normalize_subjects subject_ = spec_normalized_subjects subject_.
Proof.
  unfold normalize_subjects, spec_normalized_subjects.
  rewrite foldl_extend, app_nil_l. f_equal.
  induction subject_ as [|s l IH]; [done|].
  by rewrite !bind_cons, fmap_app, filter_app, IH, strip_kept_parts.
Qed.

(** C4. The subjects of a request are normalized by splitting every
    element on commas, trimming the parts, dropping the empty ones and
    lowercasing the rest; and the matches are the questions of the
    store, in store order, whose [use], trimmed and lowercased, equals
    the requested one, trimmed and lowercased, and whose [subject],
    trimmed and lowercased, is among the normalized subjects. *)
Theorem matching_follows_normalization db use_ subject_ :
  normalize_subjects subject_ = spec_normalized_subjects subject_
  ∧ find_matches db use_ (normalize_subjects subject_)
    = filter (spec_is_match use_ subject_) db
  ∧ ∀ q, q ∈ find_matches db use_ (normalize_subjects subject_)
         ↔ q ∈ db ∧ spec_is_match use_ subject_ q.
Proof.
  assert (find_matches db use_ (normalize_subjects subject_)
          = filter (spec_is_match use_ subject_) db) as Heq.
  { unfold find_matches. apply list_filter_iff. intros q.
    unfold spec_is_match. by rewrite normalize_subjects_spec. }
  split_and!; [apply normalize_subjects_spec|done|].
  intros q. rewrite Heq, list_elem_of_filter. tauto.
Qed.

(** ** Selection: errors *)

Lemma allowed_counts_iff count :
  count ∈ allowed_counts ↔ count = 5 ∨ count = 10 ∨ count = 20.
Proof.
  unfold allowed_counts. rewrite !elem_of_cons, elem_of_nil. tauto.
Qed.

(** C6. With a [count] other than 5, 10 and 20 the handler raises the
    400 of its first check: the same result whatever the store, the
    requested use and the subjects are, and with the generator left as
    it was. *)
Theorem bad_count_rejected_first {G} `{Random G}
    db (g : G) use_ subject_ count user :
  count ≠ 5 → count ≠ 10 → count ≠ 20 →
  InvalidArgument (get_questions db g use_ subject_ count user).1
  ∧ get_questions db g use_ subject_ count user
    = (Raise (HTTPException 400
                (Message "count must be one of 5, 10 or 20")), g).
Proof.
  intros H5 H10 H20. unfold get_questions.
  rewrite bool_decide_eq_false_2.
  - split; [by eexists|done].
  - rewrite allowed_counts_iff. tauto.
Qed.

Lemma bad_count_rejected_first_witness :
  get_questions six_questions [3; 1; 4]%nat "exam" ["math, physics"] 6 alice
  = (Raise (HTTPException 400
              (Message "count must be one of 5, 10 or 20")), [3; 1; 4]%nat).
Proof.
  by apply (bad_count_rejected_first six_questions [3; 1; 4]%nat
              "exam" ["math, physics"] 6 alice).
Defined.

(** The 404 of an empty match list. *)
Lemma get_questions_no_match {G} `{Random G}
    db (g : G) use_ subject_ count user :
  count ∈ allowed_counts →
  find_matches db use_ (normalize_subjects subject_) = [] →
  get_questions db g use_ subject_ count user
  = (Raise (HTTPException 404
              (NoQuestionsFound use_ (normalize_subjects subject_))), g).
Proof.
  intros Hcount Hnone. unfold get_questions.
  by rewrite bool_decide_eq_true_2, Hnone.
Qed.

(** The 400 of a match list shorter than [count]. *)
Lemma get_questions_too_few {G} `{Random G}
    db (g : G) use_ subject_ count user :
  count ∈ allowed_counts →
  let matches := find_matches db use_ (normalize_subjects subject_) in
  matches ≠ [] → Z.of_nat (length matches) < count →
  get_questions db g use_ subject_ count user
  = (Raise (HTTPException 400
              (NotEnoughQuestions (length matches) count)), g).
Proof.
  intros Hcount matches Hsome Hfew. unfold get_questions.
  rewrite bool_decide_eq_true_2 by done. cbv zeta. fold matches.
  rewrite bool_decide_eq_false_2 by done.
  by rewrite (proj2 (Z.ltb_lt _ _)).
Qed.

(** Past its three checks the handler samples and shuffles. *)
Lemma get_questions_enough {G} `{Random G}
    db (g : G) use_ subject_ count user :
  count ∈ allowed_counts →
  let matches := find_matches db use_ (normalize_subjects subject_) in
  count ≤ Z.of_nat (length matches) →
  get_questions db g use_ subject_ count user
  = match sample g matches (Z.to_nat count) with
    | (Raise e, g1) => (Raise e, g1)
    | (Ok selected, g1) =>
        (Ok (pretty_json (shuffle g1 selected).1 200),
         (shuffle g1 selected).2)
    end.
Proof.
  intros Hcount matches Henough. unfold get_questions.
  rewrite bool_decide_eq_true_2 by done. cbv zeta. fold matches.
  assert (matches ≠ []) as Hsome.
  { intros Hnil. rewrite Hnil in Henough. simpl in Henough.
    apply allowed_counts_iff in Hcount. lia. }
  rewrite bool_decide_eq_false_2 by done.
  rewrite (proj2 (Z.ltb_ge _ _)) by done. simpl.
  destruct (sample g matches (Z.to_nat count)) as [[selected|e] g1];
    [|done].
  by destruct (shuffle g1 selected).
Qed.

Lemma submseteq_NoDup {A} (l k : list A) : l ⊆+ k → NoDup k → NoDup l.
Proof.
  intros [k' Hk]%submseteq_Permutation. rewrite Hk.
  by intros [? _]%NoDup_app.
Qed.

(** What [sample] then [shuffle] hand back, for a source that behaves
    as documented. *)
Lemma get_questions_selected {G} `{RandomSpec G}
    db (g : G) use_ subject_ count user :
  count ∈ allowed_counts →
  let matches := find_matches db use_ (normalize_subjects subject_) in
  count ≤ Z.of_nat (length matches) →
  ∃ selected,
    (get_questions db g use_ subject_ count user).1
    = Ok (pretty_json selected 200)
    ∧ Z.of_nat (length selected) = count
    ∧ selected ⊆+ matches.
Proof.
  intros Hcount matches Henough.
  rewrite get_questions_enough by done. fold matches.
  assert (0 ≤ count) by (apply allowed_counts_iff in Hcount; lia).
  destruct (sample_spec _ g matches (Z.to_nat count))
    as (drawn & Hdrawn & Hlen & Hsub); [lia|].
  destruct (sample g matches (Z.to_nat count)) as [r g1].
  simpl in Hdrawn. subst r.
  pose proof (shuffle_spec _ g1 drawn) as Hperm.
  exists (shuffle g1 drawn).1. split_and!; [done| |].
  - rewrite Hperm, Hlen. lia.
  - by rewrite Hperm.
Qed.

(** C5. With an allowed [count], the handler raises 404 when nothing
    matches and 400 when some questions match but fewer than [count];
    and whenever it answers, the answer holds [count] questions, never
    fewer. *)
Theorem selection_all_or_nothing {G} `{RandomSpec G}
    db (g : G) use_ subject_ count user :
  count ∈ allowed_counts →
  let matches := find_matches db use_ (normalize_subjects subject_) in
  let outcome := (get_questions db g use_ subject_ count user).1 in
  (length matches = 0%nat → NotFound outcome)
  ∧ (0 < Z.of_nat (length matches) < count → InvalidArgument outcome)
  ∧ (∀ response, outcome = Ok response →
       count ≤ Z.of_nat (length (content response))
       ∧ Z.of_nat (length (content response)) = count
       ∧ count ≤ Z.of_nat (length matches)).
Proof.
  intros Hcount matches outcome. subst outcome. split_and!.
  - intros Hnone%length_zero_iff_nil.
    rewrite get_questions_no_match by done. by eexists.
  - intros [Hpos Hfew].
    rewrite get_questions_too_few; [by eexists|done| |done].
    fold matches. intros Hnil. rewrite Hnil in Hpos. simpl in Hpos. lia.
  - intros response Hok.
    destruct (decide (count ≤ Z.of_nat (length matches))) as [Hge|Hlt].
    + destruct (get_questions_selected db g use_ subject_ count user
                  Hcount Hge) as (selected & Hsel & Hlen & _).
      rewrite Hsel in Hok. injection Hok as <-. simpl. lia.
    + exfalso. destruct (decide (matches = [])) as [Hnil|Hsome].
      * by rewrite get_questions_no_match in Hok.
      * rewrite get_questions_too_few in Hok; [done..|]. fold matches. lia.
Qed.

(** C3. On a store the process can hold, with an allowed [count] and
    at least [count] matches, the handler answers 200 with exactly
    [count] questions whose qids are pairwise distinct, each of them one
    of the matches (taken at distinct positions of the match list). *)
Theorem selection_exact_distinct_from_matches {G} `{RandomSpec G}
    db (g : G) use_ subject_ count user :
  reachable db →
  count ∈ allowed_counts →
  let matches := find_matches db use_ (normalize_subjects subject_) in
  count ≤ Z.of_nat (length matches) →
  ∃ selected,
    (get_questions db g use_ subject_ count user).1
    = Ok (pretty_json selected 200)
    ∧ Z.of_nat (length selected) = count
    ∧ NoDup (qid <$> selected)
    ∧ (∀ q, q ∈ selected → q ∈ matches)
    ∧ selected ⊆+ matches.
Proof.
  intros Hreach Hcount matches Henough.
  destruct (get_questions_selected db g use_ subject_ count user
              Hcount Henough) as (selected & Hsel & Hlen & Hsub).
  exists selected. split_and!; [done..| | |done].
  - apply (submseteq_NoDup _ (qid <$> db)).
    + apply fmap_submseteq. etrans; [exact Hsub|].
      apply sublist_submseteq, sublist_filter.
    + by apply reachable_NoDup.
  - intros q Hq. by eapply elem_of_submseteq.
Qed.

(** ** The tape generator behaves as documented *)

Lemma randbelow_lt n t : (0 < n)%nat → ((randbelow n t).1 < n)%nat.
Proof.
  intros Hn. destruct t as [|r t]; simpl; [done|].
  apply Nat.mod_upper_bound. lia.
Qed.

Lemma tape_draw_spec {A} (t : Tape) (pool : list A) (k : nat) :
  (k ≤ length pool)%nat →
  length (tape_draw t pool k).1 = k ∧ (tape_draw t pool k).1 ⊆+ pool.
Proof.
  revert t pool. induction k as [|k IH]; intros t pool Hk; simpl.
  - split; [done|]. apply submseteq_nil_l.
  - pose proof (randbelow_lt (length pool) t) as Hj.
    destruct (randbelow (length pool) t) as [j t1]. simpl in Hj.
    destruct (lookup_lt_is_Some_2 pool j) as [x Hx]; [lia|].
    rewrite Hx.
    destruct (IH t1 (delete j pool)) as [Hlen Hsub].
    { rewrite length_delete by eauto. lia. }
    destruct (tape_draw t1 (delete j pool) k) as [r t2]. simpl in *.
    split; [by rewrite Hlen|].
    rewrite (delete_Permutation pool j x) by done.
    by apply submseteq_skip.
Qed.

Lemma tape_random_spec : RandomSpec Tape.
Proof.
  split.
  - intros A t population k Hk. simpl. unfold tape_sample.
    rewrite decide_False by lia.
    destruct (tape_draw_spec t population k Hk) as [Hlen Hsub].
    destruct (tape_draw t population k) as [r t'].
    by exists r.
  - intros A t x. simpl. unfold tape_shuffle.
    destruct (tape_draw_spec t x (length x)) as [Hlen Hsub]; [done|].
    apply submseteq_length_Permutation; [done|]. by rewrite Hlen.
Qed.

#[global] Existing Instance tape_random_spec.

Lemma selection_all_or_nothing_witness :
  NotFound (get_questions six_loaded [3; 1; 4; 1; 5; 9]%nat
              "quiz" ["math"] 5 alice).1
  ∧ InvalidArgument (get_questions six_loaded [3; 1; 4; 1; 5; 9]%nat
                       "exam" ["math"] 5 alice).1.
Proof.
  split.
  - apply (selection_all_or_nothing six_loaded [3; 1; 4; 1; 5; 9]%nat
             "quiz" ["math"] 5 alice); [|reflexivity].
    apply list_elem_of_here.
  - apply (selection_all_or_nothing six_loaded [3; 1; 4; 1; 5; 9]%nat
             "exam" ["math"] 5 alice); [|vm_compute; by split].
    apply list_elem_of_here.
Defined.

Lemma selection_exact_distinct_from_matches_witness :
  reachable six_loaded
  ∧ ∃ selected,
      (get_questions six_loaded [3; 1; 4; 1; 5; 9; 2; 6; 5; 3]%nat
         "exam" ["math, physics"] 5 alice).1
      = Ok (pretty_json selected 200)
      ∧ Z.of_nat (length selected) = 5
      ∧ NoDup (qid <$> selected).
Proof.
  assert (reachable six_loaded) as Hreach.
  { apply (reachable_startup (offline_env (Ok six_rows) false (Ok ()))).
    reflexivity. }
  split; [exact Hreach|].
  destruct (selection_exact_distinct_from_matches
              six_loaded [3; 1; 4; 1; 5; 9; 2; 6; 5; 3]%nat
              "exam" ["math, physics"] 5 alice Hreach)
    as (selected & Hsel & Hlen & Hnodup & _).
  - apply list_elem_of_here.
  - vm_compute. discriminate.
  - by exists selected.
Defined.

(** * Further properties *)

(** ** Characters and text *)

Lemma isspace_lower_char c : isspace (lower_char c) = isspace c.
Proof. by destruct c as [[] [] [] [] [] [] [] []]. Qed.

Lemma lower_char_idem c : lower_char (lower_char c) = lower_char c.
Proof. by destruct c as [[] [] [] [] [] [] [] []]. Qed.

Lemma lower_char_comma c :
  bool_decide (lower_char c = ","%char) = bool_decide (c = ","%char).
Proof. by destruct c as [[] [] [] [] [] [] [] []]. Qed.

Lemma str_lower_idem s : str_lower (str_lower s) = str_lower s.
Proof.
  induction s as [|c t IH]; [done|]. simpl. by rewrite lower_char_idem, IH.
Qed.

Lemma str_lower_empty s : str_lower s = "" ↔ s = "".
Proof. by destruct s. Qed.

Lemma str_contains_comma_lower s :
  str_contains "," (str_lower s) = str_contains "," s.
Proof.
  induction s as [|c t IH]; [done|]. simpl.
  by rewrite lower_char_comma, IH.
Qed.

Lemma str_lstrip_lower s : str_lstrip (str_lower s) = str_lower (str_lstrip s).
Proof.
  induction s as [|c t IH]; [done|]. simpl.
  rewrite isspace_lower_char. by destruct (isspace c).
Qed.

Lemma str_rstrip_lower s : str_rstrip (str_lower s) = str_lower (str_rstrip s).
Proof.
  induction s as [|c t IH]; [done|]. simpl. rewrite IH.
  destruct (str_rstrip t) as [|c' t']; simpl; [|done].
  rewrite isspace_lower_char. by destruct (isspace c).
Qed.

(** Trimming and lowercasing commute. *)
Lemma str_strip_lower s : str_strip (str_lower s) = str_lower (str_strip s).
Proof. unfold str_strip. by rewrite str_lstrip_lower, str_rstrip_lower. Qed.

Lemma str_rstrip_idem s : str_rstrip (str_rstrip s) = str_rstrip s.
Proof.
  induction s as [|c t IH]; [done|]. simpl.
  destruct (str_rstrip t) as [|c' t'] eqn:Ht.
  - destruct (isspace c) eqn:Hc; simpl; [done|]. by rewrite Hc.
  - simpl in *. by rewrite IH.
Qed.

Lemma str_lstrip_rstrip_lstrip s :
  str_lstrip (str_rstrip (str_lstrip s)) = str_rstrip (str_lstrip s).
Proof.
  induction s as [|c t IH]; [done|]. simpl.
  destruct (isspace c) eqn:Hc; [done|]. simpl.
  destruct (str_rstrip t); rewrite ?Hc; simpl; by rewrite ?Hc.
Qed.

(** Trimming twice is trimming once. *)
Lemma str_strip_idem s : str_strip (str_strip s) = str_strip s.
Proof.
  unfold str_strip. by rewrite str_lstrip_rstrip_lstrip, str_rstrip_idem.
Qed.

(** The key both sides of a comparison are reduced to is stable. *)
Lemma normal_key_idem s :
  str_lower (str_strip (str_lower (str_strip s))) = str_lower (str_strip s).
Proof. by rewrite str_strip_lower, str_strip_idem, str_lower_idem. Qed.

Lemma str_app_cons c a b : String c a +:+ b = String c (a +:+ b).
Proof. done. Qed.

Lemma str_split_nonempty sep s : str_split sep s ≠ [].
Proof.
  destruct s as [|c t]; [done|]. simpl.
  case_bool_decide; [done|]. by destruct (str_split sep t).
Qed.

(** Splitting a text joined with the separator splits both sides. *)
Lemma str_split_join sep a b :
  str_split sep (a +:+ String sep b) = str_split sep a ++ str_split sep b.
Proof.
  induction a as [|c a IH].
  - change ("" +:+ String sep b) with (String sep b). simpl.
    by rewrite bool_decide_eq_true_2.
  - rewrite str_app_cons. simpl. rewrite IH.
    case_bool_decide; [done|].
    pose proof (str_split_nonempty sep a).
    by destruct (str_split sep a).
Qed.

Lemma str_split_absent sep s :
  str_contains sep s = false → str_split sep s = [s].
Proof.
  induction s as [|c t IH]; [done|]. simpl.
  case_bool_decide; [done|]. simpl. intros Ht. by rewrite IH.
Qed.

Lemma str_split_parts sep s part :
  part ∈ str_split sep s → str_contains sep part = false.
Proof.
  revert part. induction s as [|c t IH]; intros part; simpl.
  - by intros ->%list_elem_of_singleton.
  - case_bool_decide as Hc.
    + intros [->|Hp]%elem_of_cons; [done|by apply IH].
    + pose proof (str_split_nonempty sep t).
      destruct (str_split sep t) as [|h r]; [done|].
      intros [->|Hp]%elem_of_cons.
      * simpl. rewrite bool_decide_eq_false_2 by done.
        apply IH, list_elem_of_here.
      * by apply IH, list_elem_of_further.
Qed.

(** ** Credential gate *)

(** X1. Whatever the gate accepts came from a header that starts with
    ["Basic "] and whose trimmed payload is the returned username (free
    of colons), a colon and a password; the identity is an admin exactly
    when that password is the admin password, and otherwise the
    password is the one [USERS] stores for the username. *)
Theorem gate_identity_sound authorization identity :
  get_current_user authorization = Ok identity →
  ∃ a password,
    authorization = Some a
    ∧ str_startswith "Basic " a = true
    ∧ str_strip (str_drop 6 a) = username identity +:+ String ":" password
    ∧ str_contains ":" (username identity) = false
    ∧ (is_admin identity = true ↔ password = ADMIN_PASSWORD)
    ∧ (is_admin identity = false →
       USERS !! username identity = Some password).
Proof.
  intros Hok. destruct authorization as [a|]; [|done].
  destruct (str_startswith "Basic " a) eqn:Hpre.
  2: { destruct (get_current_user_bad_scheme a Hpre) as [d Hd]. congruence. }
  destruct (str_contains ":" (str_drop 6 a)) eqn:Hcolon.
  2: { destruct (get_current_user_no_colon a Hpre Hcolon) as [d Hd].
       congruence. }
  assert (str_contains ":" (str_strip (str_drop 6 a)) = true) as Hc
    by by rewrite str_contains_strip.
  destruct (str_split1_present _ _ Hc) as (u & p & Hsplit & Hu & Hjoin).
  rewrite (get_current_user_split a u p Hpre Hsplit) in Hok.
  exists a, p.
  case_bool_decide as Hadmin; [|case_bool_decide as Huser];
    simplify_eq; simpl; by split_and!.
Qed.

Lemma gate_identity_sound_witness :
  ∃ a password,
    Some "Basic  alice:wonderland " = Some a
    ∧ str_startswith "Basic " a = true
    ∧ str_strip (str_drop 6 a) = "alice" +:+ String ":" password
    ∧ str_contains ":" "alice" = false
    ∧ (false = true ↔ password = ADMIN_PASSWORD)
    ∧ (false = false → USERS !! "alice" = Some password).
Proof.
  exact (gate_identity_sound (Some "Basic  alice:wonderland ")
           (mkIdentity "alice" false) eq_refl).
Defined.

Lemma registered_user_identity u p :
  USERS !! u = Some p →
  get_current_user (Some ("Basic " +:+ u +:+ ":" +:+ p))
  = Ok (mkIdentity u false).
Proof.
  unfold USERS. intros H.
  repeat (apply lookup_insert_Some in H as [[<- <-]|[_ H]]; [done|]).
  by apply lookup_singleton_Some in H as [<- <-].
Qed.

(** X2. Every entry of [USERS] logs in: the header ["Basic "] followed
    by the username, a colon and the stored password is accepted, and
    the identity is not an admin. *)
Theorem gate_accepts_registered_users u p :
  USERS !! u = Some p →
  get_current_user (Some ("Basic " +:+ u +:+ ":" +:+ p))
  = Ok (mkIdentity u false).
Proof. apply registered_user_identity. Qed.

Lemma gate_accepts_registered_users_witness :
  get_current_user (Some "Basic clementine:mandarine")
  = Ok (mkIdentity "clementine" false).
Proof.
  exact (gate_accepts_registered_users "clementine" "mandarine" eq_refl).
Defined.

(** Two headers with the scheme prefix and the same trimmed payload are
    treated alike. *)
Lemma gate_reads_trimmed_payload a b :
  str_startswith "Basic " a = true →
  str_startswith "Basic " b = true →
  str_strip (str_drop 6 a) = str_strip (str_drop 6 b) →
  get_current_user (Some a) = get_current_user (Some b).
Proof.
  intros Ha Hb Hsame. unfold get_current_user.
  assert (opt_truthy (Some a) = true) as -> by by destruct a.
  assert (opt_truthy (Some b) = true) as -> by by destruct b.
  rewrite !ensure_true. cbv zeta.
  change (default "" (Some a)) with a. change (default "" (Some b)) with b.
  rewrite Ha, Hb, !ensure_true.
  change (String.length "Basic ") with 6%nat. by rewrite Hsame.
Qed.

(** X3. White space around the credentials does not matter: a payload
    and its trimmed form give the same result, be it an identity or a
    401. *)
Theorem gate_ignores_payload_padding payload :
  get_current_user (Some ("Basic " +:+ payload))
  = get_current_user (Some ("Basic " +:+ str_strip payload)).
Proof.
  apply gate_reads_trimmed_payload; [done..|].
  change (str_strip payload = str_strip (str_strip payload)).
  by rewrite str_strip_idem.
Qed.

(** ** Bulk load *)

Lemma load_questions_fetch env path_or_url :
  load_questions_from_path_or_url env path_or_url
  = (df ← fetch_frame env path_or_url; Ok (frame_questions df)).
Proof. done. Qed.

Lemma fetch_frame_raises env path_or_url e :
  fetch_frame env path_or_url = Raise e → ∃ message, e = RuntimeError message.
Proof.
  unfold fetch_frame. cbv zeta.
  match goal with |- as_RuntimeError ?r = _ → _ => destruct r end;
    intros [= <-]; eauto.
Qed.

(** X4. The process always gets a store at startup, and it is one the
    invariants apply to: whatever goes wrong while the spreadsheet is
    fetched or read surfaces as [RuntimeError], and startup then goes on
    with the empty store. *)
Theorem startup_never_raises env :
  (∀ e, load_questions_from_path_or_url env None = Raise e →
        (∃ message, e = RuntimeError message) ∧ startup env = Ok [])
  ∧ ∃ db, startup env = Ok db ∧ reachable db.
Proof.
  assert (∀ e, load_questions_from_path_or_url env None = Raise e →
            (∃ message, e = RuntimeError message) ∧ startup env = Ok [])
    as Hfail.
  { intros e He. unfold startup. rewrite He.
    rewrite load_questions_fetch in He.
    destruct (fetch_frame env None) as [df|e'] eqn:Hf; [done|].
    injection He as <-.
    by destruct (fetch_frame_raises _ _ _ Hf) as [m ->]; eauto. }
  split; [done|].
  destruct (load_questions_from_path_or_url env None) as [qs|e] eqn:Hl.
  - assert (startup env = Ok qs) as Hs by (unfold startup; by rewrite Hl).
    exists qs. split; [done|]. by eapply reachable_startup.
  - destruct (Hfail e eq_refl) as [_ Hs]. exists []. split; [done|].
    by eapply reachable_startup.
Qed.

Lemma row_get_found cols row j key text :
  cols !! j = Some key → row !! j = Some text →
  (∀ j' c, (j' < j)%nat → cols !! j' = Some c → c ≠ key) →
  row_get cols row key = text.
Proof.
  intros Hc Hr Hfirst. unfold row_get.
  assert (list_find (λ p : string * string, p.1 = key) (zip cols row)
          = Some (j, (key, text))) as ->; [|done].
  apply list_find_Some. split_and!.
  - by apply lookup_zip_Some.
  - done.
  - intros j' [c t] [Hc' _]%lookup_zip_Some Hlt. simpl. by eapply Hfirst.
Qed.

Lemma row_get_missing cols row key :
  key ∉ cols → row_get cols row key = "".
Proof.
  intros Hno. unfold row_get.
  assert (list_find (λ p : string * string, p.1 = key) (zip cols row)
          = None) as ->; [|done].
  apply list_find_None, Forall_forall. intros [c t] Hin Hkey. simpl in *.
  subst c. apply Hno.
  apply list_elem_of_lookup in Hin as [i [Hi _]%lookup_zip_Some].
  by eapply list_elem_of_lookup_2.
Qed.

Lemma frame_questions_lookup df i cells :
  rows df !! i = Some cells →
  ∃ q, frame_questions df !! i = Some q
    ∧ qid q = Z.of_nat i + 1
    ∧ ∀ key, key ∈ load_keys →
        loaded_field key q
        = Some (row_get (normalize_columns (columns df))
                  (default "" <$> cells) key).
Proof.
  intros Hrow. unfold frame_questions. cbv zeta.
  rewrite list_lookup_imap. unfold fillna.
  rewrite list_lookup_fmap, Hrow. simpl. eexists. split_and!; [done..|].
  intros key Hkey. unfold load_keys in Hkey.
  repeat (apply elem_of_cons in Hkey as [->|Hkey]; [done|]).
  by apply elem_of_nil in Hkey.
Qed.

(** X5. Column labels are matched after trimming and lowercasing, and
    a missing value reads as the empty text: the question built from
    row [i] has qid [i + 1], and its field for a key holds the text of
    the cell under the one label that trims and lowercases to that key,
    or the empty text when the cell is empty. *)
Theorem loaded_field_from_column env path_or_url df i cells j label cell key :
  fetch_frame env path_or_url = Ok df →
  rows df !! i = Some cells →
  columns df !! j = Some label →
  cells !! j = Some cell →
  key ∈ load_keys →
  str_lower (str_strip label) = key →
  (∀ j' label', j' ≠ j → columns df !! j' = Some label' →
                str_lower (str_strip label') ≠ key) →
  ∃ loaded q,
    load_questions_from_path_or_url env path_or_url = Ok loaded
    ∧ loaded !! i = Some q
    ∧ qid q = Z.of_nat i + 1
    ∧ loaded_field key q = Some (default "" cell).
Proof.
  intros Hfetch Hrow Hlabel Hcell Hkey Hnorm Hfirst.
  rewrite load_questions_fetch, Hfetch.
  destruct (frame_questions_lookup df i cells Hrow) as (q & Hq & Hid & Hf).
  exists (frame_questions df), q. split_and!; [done..|].
  rewrite (Hf key Hkey). f_equal.
  apply (row_get_found _ _ j).
  - unfold normalize_columns. by rewrite list_lookup_fmap, Hlabel; simpl; f_equal.
  - by rewrite list_lookup_fmap, Hcell.
  - intros j' c Hlt Hc. unfold normalize_columns in Hc.
    rewrite list_lookup_fmap in Hc.
    destruct (columns df !! j') as [label'|] eqn:Hl'; [|done].
    injection Hc as <-. eapply Hfirst; [|done]. lia.
Qed.

Lemma loaded_field_from_column_witness :
  ∃ loaded q,
    load_questions_from_path_or_url
      (offline_env (Ok six_rows) false (Ok ())) None = Ok loaded
    ∧ loaded !! 1%nat = Some q
    ∧ qid q = 2
    ∧ loaded_field "subject" q = Some " MATH".
Proof.
  apply (loaded_field_from_column
           (offline_env (Ok six_rows) false (Ok ())) None six_rows 1
           [Some "Q"; Some " MATH"; Some "exam "; Some "A"; None]
           1 "Subject " (Some " MATH") "subject");
    try reflexivity.
  - apply list_elem_of_further, list_elem_of_here.
  - intros j' label' Hne Hl. unfold six_rows in Hl. simpl in Hl.
    destruct j' as [|[|[|[|[|j']]]]]; [| |..]; try done;
      by injection Hl as <-.
Defined.

(** X6. A key none of whose labels is in the frame reads as the empty
    text in every loaded question. *)
Theorem loaded_field_missing_column env path_or_url df key loaded q :
  fetch_frame env path_or_url = Ok df →
  key ∈ load_keys →
  (∀ label, label ∈ columns df → str_lower (str_strip label) ≠ key) →
  load_questions_from_path_or_url env path_or_url = Ok loaded →
  q ∈ loaded →
  loaded_field key q = Some "".
Proof.
  intros Hfetch Hkey Hnone. rewrite load_questions_fetch, Hfetch.
  intros [= <-] (i & Hi)%list_elem_of_lookup.
  assert (is_Some (rows df !! i)) as [cells Hrow].
  { apply lookup_lt_is_Some. apply lookup_lt_Some in Hi.
    unfold frame_questions, fillna in Hi.
    by rewrite length_imap, length_fmap in Hi. }
  destruct (frame_questions_lookup df i cells Hrow) as (q' & Hq & _ & Hf).
  rewrite Hi in Hq. injection Hq as <-.
  rewrite (Hf key Hkey). f_equal. apply row_get_missing.
  unfold normalize_columns. intros (label & Hl & Hin)%list_elem_of_fmap.
  by apply (Hnone label).
Qed.

Lemma loaded_field_missing_column_witness :
  loaded_field "responseb"
    (mkQuestion 1 "Q" "Math" "A" "Exam"
       (Some "") (Some "") (Some "") (Some ""))
  = Some "".
Proof.
  apply (loaded_field_missing_column
           (offline_env (Ok six_rows) false (Ok ())) None six_rows
           "responseb" six_loaded); try reflexivity.
  - do 5 apply list_elem_of_further. apply list_elem_of_here.
  - intros label Hin. unfold six_rows in Hin. simpl in Hin.
    repeat (apply elem_of_cons in Hin as [->|Hin]; [done|]).
    by apply elem_of_nil in Hin.
  - apply list_elem_of_here.
Defined.

(** ** Store numbering *)

Lemma max_default_row_numbers n :
  max_default 0 ((λ i : nat, Z.of_nat i + 1) <$> seq 0 n) = Z.of_nat n.
Proof.
  destruct n as [|n]; [done|].
  apply max_default_greatest.
  - apply list_elem_of_fmap. exists n. split; [lia|].
    apply elem_of_seq. lia.
  - intros x (i & -> & Hi%elem_of_seq)%list_elem_of_fmap. lia.
Qed.

(** Not only are the qids of a store distinct: they are 1, 2, ... in
    store order. *)
Lemma reachable_row_numbers db :
  reachable db →
  qid <$> db = (λ i : nat, Z.of_nat i + 1) <$> seq 0 (length db).
Proof.
  induction 1 as [env db Hstart|env db new_question user _ IH].
  - apply startup_cases in Hstart as [->|Hload]; [done|].
    by eapply loaded_qids.
  - destruct (is_admin user) eqn:Hadmin.
    + rewrite create_question_admin by done. simpl.
      rewrite fmap_app, length_app, Nat.add_1_r, seq_S, fmap_app.
      rewrite <-IH. simpl. do 2 f_equal.
      rewrite IH, max_default_row_numbers. lia.
    + by rewrite (proj2 (create_question_forbidden _ _ _ _ Hadmin)).
Qed.

(** X7. In every store the process can hold the question at position
    [i] has qid [i + 1], so the qid an admin append assigns is the new
    length of the store. *)
Theorem reachable_qids_are_positions db :
  reachable db →
  (∀ i q, db !! i = Some q → qid q = Z.of_nat i + 1)
  ∧ ∀ env new_question user,
      is_admin user = true →
      ∃ created,
        (create_question env db new_question user).1
        = (Ok (pretty_json created 201), db ++ [created])
        ∧ qid created = Z.of_nat (length (db ++ [created])).
Proof.
  intros Hreach. pose proof (reachable_row_numbers db Hreach) as Hnum.
  split.
  - intros i q Hq. apply (f_equal (.!! i)) in Hnum.
    rewrite !list_lookup_fmap, Hq in Hnum. simpl in Hnum.
    apply lookup_lt_Some in Hq.
    rewrite lookup_seq_lt in Hnum by done. by injection Hnum.
  - intros env new_question user Hadmin.
    rewrite create_question_admin by done. eexists. split; [done|].
    simpl. rewrite Hnum, max_default_row_numbers, length_app. simpl. lia.
Qed.

Lemma reachable_qids_are_positions_witness :
  reachable six_loaded
  ∧ ∃ created,
      (create_question (offline_env (Ok six_rows) false (Ok ()))
         six_loaded new_exam_question admin).1
      = (Ok (pretty_json created 201), six_loaded ++ [created])
      ∧ qid created = 7.
Proof.
  assert (reachable six_loaded) as Hreach.
  { apply (reachable_startup (offline_env (Ok six_rows) false (Ok ()))).
    reflexivity. }
  split; [exact Hreach|].
  exact (proj2 (reachable_qids_are_positions six_loaded Hreach)
           (offline_env (Ok six_rows) false (Ok ()))
           new_exam_question admin eq_refl).
Defined.

(** ** Subject normalization *)

Lemma spec_normalized_subjects_app l k :
  spec_normalized_subjects (l ++ k)
  = spec_normalized_subjects l ++ spec_normalized_subjects k.
Proof.
  unfold spec_normalized_subjects.
  by rewrite bind_app, fmap_app, filter_app, fmap_app.
Qed.

Lemma normalize_subjects_app l k :
  normalize_subjects (l ++ k) = normalize_subjects l ++ normalize_subjects k.
Proof. rewrite !normalize_subjects_spec. apply spec_normalized_subjects_app. Qed.

(** X8. A comma-joined subject argument is read as its two sides given
    as separate arguments, wherever it stands in the list. *)
Theorem normalize_subjects_join before a b after :
  normalize_subjects (before ++ [a +:+ String "," b] ++ after)
  = normalize_subjects (before ++ [a; b] ++ after).
Proof.
  rewrite !normalize_subjects_app. f_equal. f_equal.
  rewrite !normalize_subjects_spec. unfold spec_normalized_subjects.
  do 2 f_equal. rewrite !bind_cons, str_split_join. simpl.
  by rewrite !app_nil_r.
Qed.

(** What every normalized subject looks like. *)
Lemma normalized_subject_token subject_ t :
  t ∈ normalize_subjects subject_ →
  t ≠ "" ∧ str_contains "," t = false
  ∧ str_strip t = t ∧ str_lower t = t.
Proof.
  rewrite normalize_subjects_spec. unfold spec_normalized_subjects.
  intros (s' & -> & [Hne (part & -> & (s & Hpart & Hs)%list_elem_of_bind)
                       %list_elem_of_fmap]%list_elem_of_filter)
         %list_elem_of_fmap.
  split_and!.
  - by rewrite str_lower_empty.
  - rewrite str_contains_comma_lower, str_contains_strip by done.
    by eapply str_split_parts.
  - by rewrite str_strip_lower, str_strip_idem.
  - apply str_lower_idem.
Qed.

Lemma spec_normalized_tokens_fixed (l : list string) :
  Forall (λ t, t ≠ "" ∧ str_contains "," t = false
               ∧ str_strip t = t ∧ str_lower t = t) l →
  spec_normalized_subjects l = l.
Proof.
  induction 1 as [|t l (Hne & Hcomma & Hstrip & Hlower) _ IH]; [done|].
  change (t :: l) with ([t] ++ l) at 1.
  rewrite spec_normalized_subjects_app, IH. f_equal.
  unfold spec_normalized_subjects.
  rewrite bind_cons, (str_split_absent _ _ Hcomma). simpl.
  rewrite Hstrip, filter_cons_True by done. simpl. by rewrite Hlower.
Qed.

Lemma normalize_subjects_idem subject_ :
  normalize_subjects (normalize_subjects subject_)
  = normalize_subjects subject_.
Proof.
  rewrite (normalize_subjects_spec (normalize_subjects _)).
  apply spec_normalized_tokens_fixed, Forall_forall.
  apply normalized_subject_token.
Qed.

(** X9. Every normalized subject is non-empty, free of commas,
    trimmed and lowercase; normalizing a normalized list does not
    change it. *)
Theorem normalize_subjects_tokens subject_ :
  (∀ t, t ∈ normalize_subjects subject_ →
        t ≠ "" ∧ str_contains "," t = false
        ∧ str_strip t = t ∧ str_lower t = t)
  ∧ normalize_subjects (normalize_subjects subject_)
    = normalize_subjects subject_.
Proof.
  split; [apply normalized_subject_token|apply normalize_subjects_idem].
Qed.

(** X10. Matching does not see the case of the requested use nor the
    white space around it, nor whether the subjects are given raw or
    already normalized. *)
Theorem matching_ignores_case_and_padding db use_ subject_ :
  find_matches db use_ (normalize_subjects subject_)
  = find_matches db (str_lower (str_strip use_))
      (normalize_subjects (normalize_subjects subject_)).
Proof.
  rewrite normalize_subjects_idem.
  unfold find_matches. apply list_filter_iff. intros q.
  by rewrite normal_key_idem.
Qed.

(** ** Selection *)

(** An answer of the handler was sampled from the matches. *)
Lemma get_questions_ok_inv {G} `{RandomSpec G}
    db (g : G) use_ subject_ count user response :
  (get_questions db g use_ subject_ count user).1 = Ok response →
  let matches := find_matches db use_ (normalize_subjects subject_) in
  count ∈ allowed_counts
  ∧ count ≤ Z.of_nat (length matches)
  ∧ Z.of_nat (length (content response)) = count
  ∧ content response ⊆+ matches
  ∧ status_code response = 200.
Proof.
  intros Hok matches.
  destruct (decide (count ∈ allowed_counts)) as [Hcount|Hbad].
  2: { unfold get_questions in Hok.
       by rewrite bool_decide_eq_false_2 in Hok. }
  destruct (decide (count ≤ Z.of_nat (length matches))) as [Hge|Hlt].
  - destruct (get_questions_selected db g use_ subject_ count user
                Hcount Hge) as (selected & Hsel & Hlen & Hsub).
    rewrite Hsel in Hok. injection Hok as <-. by split_and!.
  - exfalso. destruct (decide (matches = [])) as [Hnil|Hsome].
    + by rewrite get_questions_no_match in Hok.
    + rewrite get_questions_too_few in Hok; [done..|]. fold matches. lia.
Qed.

(** X11. A question whose subject holds a comma, or is blank once
    trimmed, matches no request at all, so no answer ever contains
    it. *)
Theorem unmatchable_subjects {G} `{RandomSpec G}
    db (g : G) use_ subject_ count user q :
  str_contains "," (subject q) = true ∨ str_strip (subject q) = "" →
  (q ∉ find_matches db use_ (normalize_subjects subject_))
  ∧ (∀ response,
       (get_questions db g use_ subject_ count user).1 = Ok response →
       q ∉ content response).
Proof.
  intros Hbad.
  assert (q ∉ find_matches db use_ (normalize_subjects subject_)) as Hno.
  { unfold find_matches. rewrite list_elem_of_filter.
    intros [[_ Htoken] _].
    apply normalized_subject_token in Htoken as (Hne & Hcomma & _).
    rewrite str_contains_comma_lower, str_contains_strip in Hcomma by done.
    rewrite str_lower_empty in Hne.
    destruct Hbad; congruence. }
  split; [done|]. intros response Hok Hin.
  apply get_questions_ok_inv in Hok as (_ & _ & _ & Hsub & _).
  apply Hno. by eapply elem_of_submseteq.
Qed.

Lemma unmatchable_subjects_witness :
  sample_question 9 "exam" "math,physics"
  ∉ find_matches (six_loaded ++ [sample_question 9 "exam" "math,physics"])
      "exam" (normalize_subjects ["math,physics"]).
Proof.
  apply (unmatchable_subjects
           (six_loaded ++ [sample_question 9 "exam" "math,physics"])
           ([] : Tape) "exam" ["math,physics"] 5 alice
           (sample_question 9 "exam" "math,physics")).
  by left.
Defined.

(** X12. When exactly [count] questions match, the answer holds all of
    them, in some order. *)
Theorem exact_count_returns_all_matches {G} `{RandomSpec G}
    db (g : G) use_ subject_ count user :
  count ∈ allowed_counts →
  Z.of_nat (length (find_matches db use_ (normalize_subjects subject_)))
  = count →
  ∃ selected,
    (get_questions db g use_ subject_ count user).1
    = Ok (pretty_json selected 200)
    ∧ selected ≡ₚ find_matches db use_ (normalize_subjects subject_).
Proof.
  intros Hcount Hlen.
  destruct (get_questions_selected db g use_ subject_ count user Hcount)
    as (selected & Hsel & Hlen' & Hsub); [lia|].
  exists selected. split; [done|].
  apply submseteq_length_Permutation; [done|]. lia.
Qed.

Lemma exact_count_returns_all_matches_witness :
  ∃ selected,
    (get_questions six_loaded [3; 1; 4; 1; 5; 9; 2; 6; 5; 3]%nat
       "exam" ["math, physics"] 5 alice).1
    = Ok (pretty_json selected 200)
    ∧ selected
      ≡ₚ find_matches six_loaded "exam" (normalize_subjects ["math, physics"]).
Proof.
  apply (exact_count_returns_all_matches six_loaded
           [3; 1; 4; 1; 5; 9; 2; 6; 5; 3]%nat
           "exam" ["math, physics"] 5 alice).
  - apply list_elem_of_here.
  - reflexivity.
Defined.

Lemma blank_subjects_normalize (subject_ : list string) :
  (∀ s part, s ∈ subject_ → part ∈ str_split "," s → str_strip part = "") →
  normalize_subjects subject_ = [].
Proof.
  intros Hblank.
  destruct (normalize_subjects subject_) as [|t l] eqn:Hn; [done|].
  assert (t ∈ normalize_subjects subject_) as Ht
    by (rewrite Hn; apply list_elem_of_here).
  rewrite normalize_subjects_spec in Ht. unfold spec_normalized_subjects in Ht.
  apply list_elem_of_fmap in Ht as (s' & _ & Hs').
  apply list_elem_of_filter in Hs' as [Hne Hs'].
  apply list_elem_of_fmap in Hs' as (part & -> & Hpart).
  apply list_elem_of_bind in Hpart as (s & Hpart & Hs).
  by destruct Hne; eapply Hblank.
Qed.

Lemma find_matches_no_subjects db use_ : find_matches db use_ [] = [].
Proof.
  destruct (find_matches db use_ []) as [|q l] eqn:Hm; [done|].
  assert (q ∈ find_matches db use_ []) as Hq
    by (rewrite Hm; apply list_elem_of_here).
  unfold find_matches in Hq.
  by apply list_elem_of_filter in Hq as [[_ ?%elem_of_nil] _].
Qed.

(** X13. With an allowed [count] the handler answers 404, leaving the
    generator as it was, whenever the store is empty or every subject
    argument is made of commas and white space only; an empty list of
    subjects is the plainest case. *)
Theorem nothing_to_match_not_found {G} `{Random G}
    db (g : G) use_ subject_ count user :
  count ∈ allowed_counts →
  (db = []
   ∨ ∀ s part, s ∈ subject_ → part ∈ str_split "," s → str_strip part = "") →
  NotFound (get_questions db g use_ subject_ count user).1
  ∧ (get_questions db g use_ subject_ count user).2 = g.
Proof.
  intros Hcount Hcase.
  rewrite get_questions_no_match; [by split; [eexists|]|done|].
  destruct Hcase as [->|Hblank]; [done|].
  rewrite blank_subjects_normalize by done.
  apply find_matches_no_subjects.
Qed.

Lemma nothing_to_match_not_found_witness :
  NotFound (get_questions six_loaded [2; 7]%nat "exam" [" , ,"; ""] 10 alice).1
  ∧ (get_questions six_loaded [2; 7]%nat "exam" [" , ,"; ""] 10 alice).2
    = [2; 7]%nat.
Proof.
  apply (nothing_to_match_not_found six_loaded [2; 7]%nat
           "exam" [" , ,"; ""] 10 alice).
  - apply list_elem_of_further, list_elem_of_here.
  - right. intros s part Hs Hpart.
    repeat (apply elem_of_cons in Hs as [->|Hs];
            [simpl in Hpart;
             repeat (apply elem_of_cons in Hpart as [->|Hpart]; [done|]);
             by apply elem_of_nil in Hpart|]).
    by apply elem_of_nil in Hs.
Defined.

(** ** Append, then select *)

Lemma normalize_single_subject s :
  str_contains "," s = false → str_strip s ≠ "" →
  normalize_subjects [s] = [str_lower (str_strip s)].
Proof.
  intros Hcomma Hne. rewrite normalize_subjects_spec.
  unfold spec_normalized_subjects.
  rewrite bind_cons, (str_split_absent _ _ Hcomma). simpl.
  by rewrite filter_cons_True.
Qed.

(** X14. A question an admin appends is selectable at once: it is the
    last match of a request for its own use and subject, provided the
    subject has no comma and is not blank; and for any request the
    matches of the old store are still matches, in the same order,
    before it. *)
Theorem created_question_is_selectable env db new_question user :
  is_admin user = true →
  str_contains "," (QuestionIn.subject new_question) = false →
  str_strip (QuestionIn.subject new_question) ≠ "" →
  ∃ created db',
    (create_question env db new_question user).1
    = (Ok (pretty_json created 201), db')
    ∧ find_matches db' (QuestionIn.use new_question)
        (normalize_subjects [QuestionIn.subject new_question])
      = find_matches db (QuestionIn.use new_question)
          (normalize_subjects [QuestionIn.subject new_question])
        ++ [created]
    ∧ ∀ use_ subject_,
        find_matches db use_ (normalize_subjects subject_)
        `prefix_of` find_matches db' use_ (normalize_subjects subject_).
Proof.
  intros Hadmin Hcomma Hne. rewrite create_question_admin by done.
  eexists _, _. split; [done|]. split.
  - unfold find_matches. rewrite filter_app. f_equal.
    rewrite filter_cons_True; [done|]. simpl. split; [done|].
    rewrite normalize_single_subject by done. apply list_elem_of_here.
  - intros use_ subject_. unfold find_matches. rewrite filter_app.
    by apply prefix_app_r.
Qed.

Lemma created_question_is_selectable_witness :
  ∃ created db',
    (create_question (offline_env (Ok six_rows) false (Ok ()))
       six_loaded new_exam_question admin).1
    = (Ok (pretty_json created 201), db')
    ∧ find_matches db' "exam" (normalize_subjects ["math"])
      = find_matches six_loaded "exam" (normalize_subjects ["math"])
        ++ [created].
Proof.
  destruct (created_question_is_selectable
              (offline_env (Ok six_rows) false (Ok ()))
              six_loaded new_exam_question admin eq_refl eq_refl)
    as (created & db' & Hrun & Hlast & _); [done|].
  by exists created, db'.
Defined.

(** ** Routes *)

(** X15. POST /questions with the admin password creates the question
    whatever the username is: the answer is 201 with the next qid and
    the question is at the end of the store. *)
Theorem post_with_admin_password_creates env db payload username new_question :
  str_split1 ":" (str_strip payload) = [username; ADMIN_PASSWORD] →
  ∃ created,
    route_create_question env db (Some ("Basic " +:+ payload)) new_question
    = (Ok (pretty_json created 201), db ++ [created],
       persist env (db ++ [created]))
    ∧ created
      = with_qid new_question (max_default 0 (qid <$> db) + 1).
Proof.
  intros Hsplit. unfold route_create_question.
  destruct (Basic_prefix payload) as [Hpre Hdrop].
  rewrite (get_current_user_split _ username ADMIN_PASSWORD Hpre)
    by by rewrite Hdrop.
  rewrite bool_decide_eq_true_2 by done.
  rewrite create_question_admin by done. by eexists.
Qed.

Lemma post_with_admin_password_creates_witness :
  ∃ created,
    route_create_question (offline_env (Ok six_rows) false (Ok ()))
      six_loaded (Some "Basic nobody:4dm1N") new_exam_question
    = (Ok (pretty_json created 201), six_loaded ++ [created], [])
    ∧ qid created = 7.
Proof.
  destruct (post_with_admin_password_creates
              (offline_env (Ok six_rows) false (Ok ()))
              six_loaded "nobody:4dm1N" "nobody" new_exam_question eq_refl)
    as (created & Hrun & ->).
  by eexists.
Defined.

(** X16. POST /questions with the credentials of a registered user is
    refused with 403: the store is left as it was and nothing is
    written back. *)
Theorem post_as_registered_user_forbidden env db u p new_question :
  USERS !! u = Some p →
  let outcome :=
    route_create_question env db
      (Some ("Basic " +:+ u +:+ ":" +:+ p)) new_question in
  Forbidden outcome.1.1 ∧ outcome.1.2 = db ∧ outcome.2 = [].
Proof.
  intros Hu. unfold route_create_question.
  rewrite (registered_user_identity u p Hu). simpl.
  split_and!; [by eexists|done..].
Qed.

Lemma post_as_registered_user_forbidden_witness :
  let outcome :=
    route_create_question (offline_env (Ok six_rows) true (Ok ()))
      six_loaded (Some "Basic bob:builder") new_exam_question in
  Forbidden outcome.1.1 ∧ outcome.1.2 = six_loaded ∧ outcome.2 = [].
Proof.
  exact (post_as_registered_user_forbidden
           (offline_env (Ok six_rows) true (Ok ()))
           six_loaded "bob" "builder" new_exam_question eq_refl).
Defined.



(** X18. GET /questions asks for an identity and nothing more: two
    requests the gate accepts, as whoever, get the same answer to the
    same query. *)
Theorem get_route_ignores_identity {G} `{Random G}
    db (g : G) authorization authorization' user user'
    use_ subject_ count :
  get_current_user authorization = Ok user →
  get_current_user authorization' = Ok user' →
  route_get_questions db g authorization use_ subject_ count
  = route_get_questions db g authorization' use_ subject_ count.
Proof.
  intros Hu Hu'. unfold route_get_questions. by rewrite Hu, Hu'.
Qed.

Lemma get_route_ignores_identity_witness :
  route_get_questions six_loaded [3; 1; 4; 1; 5]%nat
    (Some "Basic alice:wonderland") "exam" ["math, physics"] 5
  = route_get_questions six_loaded [3; 1; 4; 1; 5]%nat
      (Some "Basic root:4dm1N") "exam" ["math, physics"] 5.
Proof.
  exact (get_route_ignores_identity six_loaded [3; 1; 4; 1; 5]%nat
           (Some "Basic alice:wonderland") (Some "Basic root:4dm1N")
           (mkIdentity "alice" false) (mkIdentity "root" true)
           "exam" ["math, physics"] 5 eq_refl eq_refl).
Defined.

(** ** Where the store is read from and written to *)


